(** * Shorelark front end (www/index.js): a shallow embedding

    The page drives an opaque simulation engine (lib-simulation-wasm):
    every animation frame [redraw] clears the canvas, fetches one world
    snapshot, logs fitness statistics at the last step of a generation,
    steps the engine, and draws foods (circles) and animals (triangles).

    Modelling choices:
    - JS numbers flowing through the statistics and the draw calls are
      modelled as rationals [Q]; JS division, which yields [NaN] or an
      infinity on a zero divisor, is modelled by [js_div] into [jsnum].
    - the triangle geometry of [drawTriangle] uses [Math.sin],
      [Math.cos] and [Math.PI]; it is modelled over the reals [R].
    - the engine is a type class [Simulation] over an abstract state with
      the four methods the page calls; effects of the page (engine calls,
      canvas calls, console output, frame requests) are recorded in an
      event trace by a small state-and-writer monad. *)

From Stdlib Require Import List ZArith QArith Qminmax Qround String Lia.
From Stdlib Require Import Reals Lra.
From Stdlib Require Import DecimalString.
Import ListNotations.

Open Scope Q_scope.

(** ** JS numbers produced by division *)

Inductive jsnum :=
| JNum (q : Q)
| JNaN
| JInf (positive_sign : bool).

(** [a / b] in JS for finite [a], [b]: a zero divisor yields [NaN] for a
    zero dividend and an infinity otherwise. *)
Definition js_div (a b : Q) : jsnum :=
  if Qeq_bool b 0 then
    if Qeq_bool a 0 then JNaN else JInf (Qle_bool 0 a)
  else JNum (a / b).

(** ** World snapshot (the object returned by [simulation.world()]) *)

Record Food := mkFood { food_x : Q; food_y : Q }.

Record Animal := mkAnimal {
  animal_x : Q;
  animal_y : Q;
  animal_rotation : Q;
  animal_speed : Q;
  animal_fitness : Q
}.

Record World := mkWorld { animals : list Animal; foods : list Food }.

(** ** The engine interface the page uses *)

Class Simulation (S : Type) := {
  world : S -> World;
  is_last_run : S -> bool;
  generation : S -> Z;
  step : S -> S
}.

(** ** Events observable from the page *)

(** One generation report: the values interpolated into the
    [console.log] template of [redraw]. *)
Record Report := mkReport {
  rep_generation : Z;
  rep_avg_fitness : jsnum;
  rep_max_fitness : Q
}.

Inductive event :=
(* engine calls *)
| EWorld (w : World)                  (* simulation.world() returned w *)
| EStep                               (* simulation.step() *)
(* DOM and canvas calls *)
| ESetWidth (v : Z)                   (* viewport.width = ...  (stored value) *)
| ESetHeight (v : Z)                  (* viewport.height = ... (stored value) *)
| EStyleWidth (s : string)            (* viewport.style.width = s *)
| EStyleHeight (s : string)           (* viewport.style.height = s *)
| EScale (sx sy : Q)                  (* ctxt.scale(sx, sy) *)
| EClear (x y w h : Q)                (* ctxt.clearRect(x, y, w, h) *)
| ECircle (x y radius : Q)            (* drawCircle(ctxt, x, y, radius) *)
| ETriangle (x y size rotation : Q)   (* drawTriangle(ctxt, x, y, size, rotation) *)
| ERequestFrame                       (* requestAnimationFrame(redraw) *)
(* console *)
| EStartLog                           (* console.log("Starting shorelark") *)
| ELog (r : Report).                  (* console.log(`Generation ...`) *)

(** ** Page state: the engine state and the canvas element *)

Record Canvas := mkCanvas {
  cv_width : Z;                       (* viewport.width  (backing store) *)
  cv_height : Z;                      (* viewport.height (backing store) *)
  cv_style_width : option string;     (* viewport.style.width  *)
  cv_style_height : option string;    (* viewport.style.height *)
  cv_scale : Q * Q                    (* scale part of the 2d context transform *)
}.

Record PageState (S : Type) := mkPageState { ps_sim : S; ps_canvas : Canvas }.
Arguments mkPageState {S} _ _.
Arguments ps_sim {S} _.
Arguments ps_canvas {S} _.

(** ** A state and writer monad for the page *)

Definition M (S A : Type) : Type := PageState S -> A * PageState S * list event.

Definition ret {S A} (a : A) : M S A := fun st => (a, st, []).

Definition bind {S A B} (m : M S A) (k : A -> M S B) : M S B :=
  fun st =>
    let '(a, st1, tr1) := m st in
    let '(b, st2, tr2) := k a st1 in
    (b, st2, tr1 ++ tr2).

Notation "x <- c1 ;; c2" := (bind c1 (fun x => c2))
  (at level 61, c1 at next level, right associativity).
Notation "c1 ;; c2" := (bind c1 (fun _ : unit => c2))
  (at level 61, right associativity).

Definition emit {S} (e : event) : M S unit := fun st => (tt, st, [e]).

Fixpoint for_each {S A} (xs : list A) (body : A -> M S unit) : M S unit :=
  match xs with
  | [] => ret tt
  | x :: xs' => body x ;; for_each xs' body
  end.

(** ** WebIDL / HTML conversions used by the canvas setters *)

(** Truncation toward zero of a finite JS number. *)
Definition js_trunc (q : Q) : Z :=
  if Qle_bool 0 q then Qfloor q else (- Qfloor (- q))%Z.

(** Assigning a number to the [unsigned long] reflected attributes
    [width]/[height] of a canvas: WebIDL ToUint32-style conversion, then
    HTML reflection, which stores the default when the value exceeds
    2147483647. *)
Definition canvas_dimension (default : Z) (q : Q) : Z :=
  let v := (js_trunc q mod 2 ^ 32)%Z in
  if (v <=? 2147483647)%Z then v else default.

(** JS [String(n)] for an integer [n]. *)
Definition string_of_Z (z : Z) : string := NilZero.string_of_int (Z.to_int z).

Section Page.

Context {S : Type} `{Simulation S}.

(** *** Primitive effects *)

Definition sim_world : M S World :=
  fun st => let w := world (ps_sim st) in (w, st, [EWorld w]).

Definition sim_is_last_run : M S bool :=
  fun st => (is_last_run (ps_sim st), st, []).

Definition sim_generation : M S Z :=
  fun st => (generation (ps_sim st), st, []).

Definition sim_step : M S unit :=
  fun st => (tt, mkPageState (step (ps_sim st)) (ps_canvas st), [EStep]).

Definition get_viewport_width : M S Z :=
  fun st => (cv_width (ps_canvas st), st, []).

Definition get_viewport_height : M S Z :=
  fun st => (cv_height (ps_canvas st), st, []).

(** Setting [width] or [height] of a canvas resets its context, and so
    its transform. *)
Definition set_viewport_width (q : Q) : M S unit :=
  fun st =>
    let c := ps_canvas st in
    let v := canvas_dimension 300 q in
    (tt, mkPageState (ps_sim st)
           (mkCanvas v (cv_height c) (cv_style_width c) (cv_style_height c) (1, 1)),
     [ESetWidth v]).

Definition set_viewport_height (q : Q) : M S unit :=
  fun st =>
    let c := ps_canvas st in
    let v := canvas_dimension 150 q in
    (tt, mkPageState (ps_sim st)
           (mkCanvas (cv_width c) v (cv_style_width c) (cv_style_height c) (1, 1)),
     [ESetHeight v]).

Definition set_style_width (s : string) : M S unit :=
  fun st =>
    let c := ps_canvas st in
    (tt, mkPageState (ps_sim st)
           (mkCanvas (cv_width c) (cv_height c) (Some s) (cv_style_height c) (cv_scale c)),
     [EStyleWidth s]).

Definition set_style_height (s : string) : M S unit :=
  fun st =>
    let c := ps_canvas st in
    (tt, mkPageState (ps_sim st)
           (mkCanvas (cv_width c) (cv_height c) (cv_style_width c) (Some s) (cv_scale c)),
     [EStyleHeight s]).

Definition ctxt_scale (sx sy : Q) : M S unit :=
  fun st =>
    let c := ps_canvas st in
    let '(a, b) := cv_scale c in
    (tt, mkPageState (ps_sim st)
           (mkCanvas (cv_width c) (cv_height c) (cv_style_width c) (cv_style_height c)
              (a * sx, b * sy)),
     [EScale sx sy]).

Definition ctxt_clearRect (x y w h : Q) : M S unit := emit (EClear x y w h).
Definition drawCircle (x y radius : Q) : M S unit := emit (ECircle x y radius).
Definition drawTriangle (x y size rotation : Q) : M S unit :=
  emit (ETriangle x y size rotation).
Definition requestAnimationFrame : M S unit := emit ERequestFrame.
Definition console_log (r : Report) : M S unit := emit (ELog r).

End Page.

(** ** Fitness statistics: the loop of [redraw] at the last step *)

(** [for (const animal of world.animals) { avg_fitness += animal.fitness;
    max_fitness = Math.max(max_fitness, animal.fitness); }] starting from
    [avg_fitness = 0] and [max_fitness = 0]. *)
Definition fitness_step (acc : Q * Q) (animal : Animal) : Q * Q :=
  let '(avg_fitness, max_fitness) := acc in
  (avg_fitness + animal_fitness animal, Qmax max_fitness (animal_fitness animal)).

Definition fitness_loop (xs : list Animal) : Q * Q :=
  fold_left fitness_step xs (0, 0).

(** [avg_fitness /= world.animals.length]; the report then interpolates
    [simulation.generation()], [avg_fitness] and [max_fitness]. *)
Definition fitness_stats (w : World) : jsnum * Q :=
  let '(avg_fitness, max_fitness) := fitness_loop (animals w) in
  (js_div avg_fitness (inject_Z (Z.of_nat (List.length (animals w)))), max_fitness).

(** ** The frame loop and the top level *)

Section Redraw.

Context {S : Type} `{Simulation S}.

(** [viewportWidth] and [viewportHeight] are the module constants read
    from the canvas before it is resized. *)
Variables viewportWidth viewportHeight : Z.

Definition redraw : M S unit :=
  let vw := inject_Z viewportWidth in
  let vh := inject_Z viewportHeight in
  ctxt_clearRect 0 0 vw vh ;;
  w <- sim_world ;;
  last <- sim_is_last_run ;;
  (if last then
     let '(avg_fitness, max_fitness) := fitness_stats w in
     g <- sim_generation ;;
     console_log (mkReport g avg_fitness max_fitness)
   else ret tt) ;;
  sim_step ;;
  for_each (foods w) (fun food =>
    drawCircle (food_x food * vw) (food_y food * vh) ((3 # 1000) * vw)) ;;
  for_each (animals w) (fun animal =>
    drawTriangle (animal_x animal * vw) (animal_y animal * vh)
      ((1 # 100) * vw) (animal_rotation animal)) ;;
  requestAnimationFrame.

(** The host calls [redraw] once per animation frame: [n] frames. *)
Fixpoint redraw_frames (n : nat) : M S unit :=
  match n with
  | O => ret tt
  | Datatypes.S n' => redraw ;; redraw_frames n'
  end.

End Redraw.

(** [window.devicePixelRatio || 1]; [None] is an undefined ratio. *)
Definition viewport_scale (dpr : option Q) : Q :=
  match dpr with
  | Some r => if Qeq_bool r 0 then 1 else r
  | None => 1
  end.

Section Main.

Context {S : Type} `{Simulation S}.

(** The module body after [new sim.Simulation()]: the engine state is the
    initial [ps_sim]; [frames] is the number of frames the host has run
    ([redraw()] itself and the callbacks it requested). *)
Definition main (devicePixelRatio : option Q) (frames : nat) : M S unit :=
  _world <- sim_world ;;
  viewportWidth <- get_viewport_width ;;
  viewportHeight <- get_viewport_height ;;
  let viewportScale := viewport_scale devicePixelRatio in
  set_viewport_width (inject_Z viewportWidth * viewportScale) ;;
  set_viewport_height (inject_Z viewportHeight * viewportScale) ;;
  set_style_width (string_of_Z viewportWidth ++ "px") ;;
  set_style_height (string_of_Z viewportHeight ++ "px") ;;
  ctxt_scale viewportScale viewportScale ;;
  emit EStartLog ;;
  redraw_frames viewportWidth viewportHeight frames.

End Main.

(** ** Canvas paths of the two shape helpers (over the reals) *)

Inductive path_op :=
| BeginPath
| MoveTo (x y : R)
| LineTo (x y : R)
| Arc (x y radius start_angle end_angle : R)
| Fill (fillStyle : string).

Local Open Scope R_scope.

(** [drawTriangle(ctxt, x, y, size, rotation)]: the path it builds and
    fills ([Math.PI] is [PI]). *)
Definition drawTriangle_path (x y size rotation : R) : list path_op :=
  [ BeginPath;
    MoveTo (x - sin rotation * 1.5) (y + cos rotation * 1.5);
    LineTo (x - sin (rotation + 2 / 3 * PI) * size)
           (y + cos (rotation + 2 / 3 * PI) * size);
    LineTo (x - sin (rotation + 4 / 3 * PI) * size)
           (y + cos (rotation + 4 / 3 * PI) * size);
    LineTo (x - sin rotation * 1.5) (y + cos rotation * 1.5);
    Fill "rgb(255, 255, 255)" ].

(** [drawCircle(ctxt, x, y, radius)]. *)
Definition drawCircle_path (x y radius : R) : list path_op :=
  [ BeginPath; Arc x y radius 0 (2 * PI); Fill "rgb(0, 255, 128)" ].

(** The canvas operations a recorded shape call performs. *)
Definition render_event (e : event) : list path_op :=
  match e with
  | ECircle x y r => drawCircle_path (Q2R x) (Q2R y) (Q2R r)
  | ETriangle x y size rot => drawTriangle_path (Q2R x) (Q2R y) (Q2R size) (Q2R rot)
  | _ => []
  end.

(** Unit vector of heading [a] in the convention of [drawTriangle]: a
    point at distance [d] along heading [a] from [(x, y)] is
    [(x - sin a * d, y + cos a * d)]. *)
Definition heading (a : R) : R * R := (- sin a, cos a).

Local Close Scope R_scope.

(** ** A stub engine, as the spec's end-to-end scenario describes *)

(** The engine state is the number of steps taken; the snapshot is fixed,
    the last step of the generation is step 0, the generation index is
    [gen]. *)
Definition stub_simulation (gen : Z) (w : World) : Simulation nat := {|
  world := fun _ => w;
  is_last_run := fun n => Nat.eqb n 0;
  generation := fun _ => gen;
  step := fun n => Datatypes.S n
|}.

Definition animal_with_fitness (x y fitness : Q) : Animal :=
  mkAnimal x y 0 (2 # 1000) fitness.

Definition scenario_world : World :=
  mkWorld [animal_with_fitness (1 # 4) (1 # 2) 4; animal_with_fitness (3 # 4) (1 # 2) 8]
          [mkFood (1 # 2) (1 # 3)].

Definition empty_world : World := mkWorld [] [mkFood (1 # 2) (1 # 3)].

Definition viewport_canvas : Canvas := mkCanvas 800 800 None None (1, 1).

Definition initial_page : PageState nat := mkPageState 0%nat viewport_canvas.

(** ** Trace helpers *)

Definition is_log (e : event) : bool :=
  match e with ELog _ => true | _ => false end.

Definition is_world_fetch (e : event) : bool :=
  match e with EWorld _ => true | _ => false end.

Definition is_step (e : event) : bool :=
  match e with EStep => true | _ => false end.

Definition is_shape (e : event) : bool :=
  match e with ECircle _ _ _ | ETriangle _ _ _ _ => true | _ => false end.

Definition is_scale (e : event) : bool :=
  match e with EScale _ _ => true | _ => false end.

Definition sum_fitness (xs : list Animal) : Q :=
  fold_right (fun a s => animal_fitness a + s) 0 xs.

(** * Properties *)

(** ** Monad and loop equations *)

Lemma for_each_emit {S A} (xs : list A) (f : A -> event) (st : PageState S) :
  for_each xs (fun x => emit (f x)) st = (tt, st, map f xs).
Proof.
  revert st; induction xs as [|x xs IH]; intros st; [reflexivity|].
  cbn [for_each]. unfold bind at 1. cbn. rewrite IH. reflexivity.
Qed.

Section RedrawEquation.

Context {S : Type} `{Simulation S}.

(** The report [redraw] logs at the last step, from the snapshot [w]. *)
Definition frame_report (g : Z) (w : World) : Report :=
  let '(avg_fitness, max_fitness) := fitness_stats w in
  mkReport g avg_fitness max_fitness.

Definition frame_shapes (vw vh : Z) (w : World) : list event :=
  map (fun food => ECircle (food_x food * inject_Z vw) (food_y food * inject_Z vh)
                     ((3 # 1000) * inject_Z vw)) (foods w) ++
  map (fun animal => ETriangle (animal_x animal * inject_Z vw)
                       (animal_y animal * inject_Z vh)
                       ((1 # 100) * inject_Z vw) (animal_rotation animal)) (animals w).

(** One frame, written out: its trace and the engine state it leaves. *)
Lemma redraw_eq (vw vh : Z) (st : PageState S) :
  let s := ps_sim st in
  let w := world s in
  redraw vw vh st =
    (tt, mkPageState (step s) (ps_canvas st),
     [EClear 0 0 (inject_Z vw) (inject_Z vh); EWorld w] ++
     (if is_last_run s then [ELog (frame_report (generation s) w)] else []) ++
     [EStep] ++ frame_shapes vw vh w ++ [ERequestFrame]).
Proof.
  intros s w. destruct st as [s0 c]. subst s w; cbn [ps_sim ps_canvas].
  unfold redraw, drawCircle, drawTriangle.
  unfold bind at 1 2 3 4 5 6 7. unfold ctxt_clearRect, emit at 1, sim_world, sim_is_last_run.
  cbn [ps_sim ps_canvas].
  destruct (is_last_run s0) eqn:Hl.
  - unfold frame_report, sim_generation, console_log.
    destruct (fitness_stats (world s0)) as [a m].
    unfold bind, emit at 1, sim_step; cbn [ps_sim ps_canvas].
    rewrite !for_each_emit. unfold requestAnimationFrame, emit, frame_shapes. cbn.
    now rewrite <- !app_assoc.
  - unfold ret, bind, sim_step; cbn [ps_sim ps_canvas].
    rewrite !for_each_emit. unfold requestAnimationFrame, emit, frame_shapes. cbn.
    now rewrite <- !app_assoc.
Qed.

End RedrawEquation.

Lemma filter_map_all {A B} (p : B -> bool) (f : A -> B) (l : list A) :
  (forall x, p (f x) = true) -> filter p (map f l) = map f l.
Proof.
  intros Hp; induction l as [|x l IH]; cbn; [reflexivity|].
  now rewrite Hp, IH.
Qed.

Lemma filter_map_none {A B} (p : B -> bool) (f : A -> B) (l : list A) :
  (forall x, p (f x) = false) -> filter p (map f l) = [].
Proof.
  intros Hp; induction l as [|x l IH]; cbn; [reflexivity|].
  now rewrite Hp, IH.
Qed.

Lemma frame_shapes_filter (p : event -> bool) vw vh w :
  (forall x y r, p (ECircle x y r) = true) ->
  (forall x y sz rot, p (ETriangle x y sz rot) = true) ->
  filter p (frame_shapes vw vh w) = frame_shapes vw vh w.
Proof.
  intros Hc Ht. unfold frame_shapes.
  rewrite filter_app, !filter_map_all; auto.
Qed.

Lemma frame_shapes_filter_none (p : event -> bool) vw vh w :
  (forall x y r, p (ECircle x y r) = false) ->
  (forall x y sz rot, p (ETriangle x y sz rot) = false) ->
  filter p (frame_shapes vw vh w) = [].
Proof.
  intros Hc Ht. unfold frame_shapes.
  rewrite filter_app, !filter_map_none; auto.
Qed.

(** ** C1: one snapshot per frame, taken before the engine steps *)

(** The trace of a frame around its single [step] call. *)
Lemma redraw_trace_split {S} `{Simulation S}
    (vw vh : Z) (st : PageState S) :
  let s := ps_sim st in
  let w := world s in
  exists pre post,
    snd (redraw vw vh st) = pre ++ EStep :: post /\
    filter is_world_fetch pre = [EWorld w] /\
    filter is_world_fetch post = [] /\
    filter is_step (pre ++ post) = [] /\
    filter is_log pre =
      (if is_last_run s then [ELog (frame_report (generation s) w)] else []) /\
    filter is_log post = [] /\
    filter is_shape pre = [] /\
    filter is_shape post = frame_shapes vw vh w /\
    ps_sim (snd (fst (redraw vw vh st))) = step s.
Proof.
  intros s w. rewrite redraw_eq. cbn [fst snd ps_sim].
  exists ([EClear 0 0 (inject_Z vw) (inject_Z vh); EWorld w] ++
          (if is_last_run s then [ELog (frame_report (generation s) w)] else [])).
  exists (frame_shapes vw vh w ++ [ERequestFrame]).
  fold s w.
  repeat match goal with |- _ /\ _ => split end.
  - destruct (is_last_run s); reflexivity.
  - destruct (is_last_run s); reflexivity.
  - rewrite filter_app, frame_shapes_filter_none; reflexivity.
  - rewrite !filter_app, frame_shapes_filter_none by reflexivity.
    destruct (is_last_run s); reflexivity.
  - destruct (is_last_run s); reflexivity.
  - rewrite filter_app, frame_shapes_filter_none; reflexivity.
  - destruct (is_last_run s); reflexivity.
  - rewrite filter_app, frame_shapes_filter by reflexivity.
    apply app_nil_r.
  - reflexivity.
Qed.

(** C1. In every frame [redraw] fetches exactly one snapshot [w], before
    the only [step] call of the frame; the report logged at a generation
    boundary (if any) is computed from [w] and also precedes the step;
    the shapes drawn are those of [w] and are drawn after the step; the
    engine ends the frame advanced by one step from the state [w] was
    read from. *)
Theorem redraw_snapshot_before_advance {S} `{Simulation S}
    (vw vh : Z) (st : PageState S) :
  let s := ps_sim st in
  let w := world s in
  exists pre post,
    snd (redraw vw vh st) = pre ++ EStep :: post /\
    filter is_world_fetch pre = [EWorld w] /\
    filter is_world_fetch post = [] /\
    filter is_step (pre ++ post) = [] /\
    filter is_log pre =
      (if is_last_run s then [ELog (frame_report (generation s) w)] else []) /\
    filter is_log post = [] /\
    filter is_shape pre = [] /\
    filter is_shape post = frame_shapes vw vh w /\
    ps_sim (snd (fst (redraw vw vh st))) = step s.
Proof. exact (redraw_trace_split vw vh st). Qed.

(** ** C2: an empty population at a boundary *)

(** C2 (amended). At a generation boundary on a snapshot with no animals,
    [redraw] still logs one report: the average is the JS quotient 0 / 0,
    that is NaN, and the max is the initial 0; no other outcome is
    signalled, and the frame goes on: the engine steps and the next frame
    is requested. *)
Theorem redraw_empty_population_reports_nan {S} `{Simulation S}
    (vw vh : Z) (st : PageState S) :
  is_last_run (ps_sim st) = true ->
  animals (world (ps_sim st)) = [] ->
  filter is_log (snd (redraw vw vh st)) =
    [ELog (mkReport (generation (ps_sim st)) JNaN 0)] /\
  ps_sim (snd (fst (redraw vw vh st))) = step (ps_sim st) /\
  last (snd (redraw vw vh st)) EStep = ERequestFrame.
Proof.
  intros Hl He. rewrite redraw_eq. cbn [fst snd ps_sim].
  rewrite Hl. split; [|split; [reflexivity|]].
  - cbn [app filter is_log].
    rewrite filter_app, frame_shapes_filter_none by reflexivity.
    unfold frame_report, fitness_stats. rewrite He. reflexivity.
  - rewrite ?app_comm_cons, !app_assoc. apply last_last.
Qed.

Lemma redraw_empty_population_reports_nan_witness :
  (is_last_run (Simulation := stub_simulation 1 empty_world) 0%nat = true /\
   animals (world (Simulation := stub_simulation 1 empty_world) 0%nat) = []) /\
  filter is_log (snd (@redraw nat (stub_simulation 1 empty_world) 800 800 initial_page)) =
    [ELog (mkReport 1 JNaN 0)] /\
  ps_sim (snd (fst (@redraw nat (stub_simulation 1 empty_world) 800 800 initial_page))) = 1%nat /\
  last (snd (@redraw nat (stub_simulation 1 empty_world) 800 800 initial_page)) EStep =
    ERequestFrame.
Proof.
  split; [split; reflexivity|].
  apply (@redraw_empty_population_reports_nan nat (stub_simulation 1 empty_world)
           800 800 initial_page); reflexivity.
Defined.

(** C2 counterexample: the report of a boundary frame over an empty
    population carries a NaN average; no distinct condition is raised. *)
Lemma redraw_empty_population_logs_nan :
  In (ELog (mkReport 1 JNaN 0))
     (snd (@redraw nat (stub_simulation 1 empty_world) 800 800 initial_page)) /\
  ~ (exists avg, In (ELog (mkReport 1 (JNum avg) 0))
       (snd (@redraw nat (stub_simulation 1 empty_world) 800 800 initial_page))).
Proof.
  split.
  - vm_compute. tauto.
  - intros [avg Hin]. vm_compute in Hin.
    repeat (destruct Hin as [Hin|Hin]; [discriminate|]). exact Hin.
Qed.

(** ** C5: simulation coordinates to canvas pixels *)

(** C5. Every shape [redraw] draws is placed at the snapshot position
    scaled by the logical size: food and animal [(x, y)] go to
    [(x * viewportWidth, y * viewportHeight)], for every position (in
    particular every one in [[0,1]^2]); hence [(0,0)] goes to [(0,0)] and
    [(1,1)] to [(viewportWidth, viewportHeight)]. *)
Theorem redraw_maps_positions_to_pixels {S} `{Simulation S}
    (vw vh : Z) (st : PageState S) :
  let w := world (ps_sim st) in
  filter is_shape (snd (redraw vw vh st)) =
    map (fun food => ECircle (food_x food * inject_Z vw) (food_y food * inject_Z vh)
                       ((3 # 1000) * inject_Z vw)) (foods w) ++
    map (fun animal => ETriangle (animal_x animal * inject_Z vw)
                         (animal_y animal * inject_Z vh)
                         ((1 # 100) * inject_Z vw) (animal_rotation animal)) (animals w) /\
  (forall x y : Q, x == 0 -> y == 0 -> x * inject_Z vw == 0 /\ y * inject_Z vh == 0) /\
  (forall x y : Q, x == 1 -> y == 1 ->
     x * inject_Z vw == inject_Z vw /\ y * inject_Z vh == inject_Z vh).
Proof.
  intros w. split; [|split].
  - rewrite redraw_eq. cbn [snd app filter is_shape].
    destruct (is_last_run (ps_sim st)); cbn [app filter is_shape];
      rewrite filter_app, frame_shapes_filter by reflexivity;
      cbn; apply app_nil_r.
  - intros x y Hx Hy. rewrite Hx, Hy. split; ring.
  - intros x y Hx Hy. rewrite Hx, Hy. split; ring.
Qed.

(** ** C7: one report per boundary frame, before the step *)

(** C7. In a frame where the engine reports the last step of a
    generation, [redraw] logs exactly one report, made of the engine's
    generation index and the average and max fitness of the frame's
    snapshot, and logs it before the engine steps. *)
Theorem redraw_boundary_single_report {S} `{Simulation S}
    (vw vh : Z) (st : PageState S) :
  is_last_run (ps_sim st) = true ->
  exists pre post,
    snd (redraw vw vh st) = pre ++ EStep :: post /\
    filter is_log pre = [ELog (frame_report (generation (ps_sim st)) (world (ps_sim st)))] /\
    filter is_log post = [] /\
    filter is_step (pre ++ post) = [].
Proof.
  intros Hl.
  destruct (redraw_trace_split vw vh st)
    as (pre & post & Htr & _ & _ & Hstep & Hlog & Hpost & _).
  exists pre, post. rewrite Hl in Hlog. auto.
Qed.

(** The spec's scenario: generation 1, animals of fitness 4 and 8, the
    last step at step 0; the single report is (1, 6, 8). *)
Lemma redraw_boundary_single_report_witness :
  is_last_run (Simulation := stub_simulation 1 scenario_world) 0%nat = true /\
  (exists pre post,
    snd (@redraw nat (stub_simulation 1 scenario_world) 800 800 initial_page) =
      pre ++ EStep :: post /\
    filter is_log pre = [ELog (frame_report 1 scenario_world)] /\
    filter is_log post = [] /\
    filter is_step (pre ++ post) = []) /\
  (exists avg max, frame_report 1 scenario_world = mkReport 1 (JNum avg) max /\
                   avg == 6 /\ max == 8).
Proof.
  split; [reflexivity|]. split.
  - apply (@redraw_boundary_single_report nat (stub_simulation 1 scenario_world)
             800 800 initial_page); reflexivity.
  - exists (12 # 2), 8. split; [reflexivity|]. split; reflexivity.
Defined.

(** ** C10: frames that are not a generation boundary *)

(** C10. In a frame where the engine does not report the last step of a
    generation, [redraw] clears the canvas, fetches the snapshot, steps
    the engine once, draws the snapshot's shapes and requests the next
    frame; it logs nothing, and nothing in the frame depends on the
    fitness values. *)
Theorem redraw_no_boundary_frame {S} `{Simulation S}
    (vw vh : Z) (st : PageState S) :
  is_last_run (ps_sim st) = false ->
  let w := world (ps_sim st) in
  redraw vw vh st =
    (tt, mkPageState (step (ps_sim st)) (ps_canvas st),
     [EClear 0 0 (inject_Z vw) (inject_Z vh); EWorld w; EStep] ++
     frame_shapes vw vh w ++ [ERequestFrame]).
Proof.
  intros Hl w. rewrite redraw_eq. rewrite Hl. reflexivity.
Qed.

Lemma redraw_no_boundary_frame_witness :
  is_last_run (Simulation := stub_simulation 1 scenario_world) 1%nat = false /\
  @redraw nat (stub_simulation 1 scenario_world) 800 800 (mkPageState 1%nat viewport_canvas) =
    (tt, mkPageState 2%nat viewport_canvas,
     [EClear 0 0 800 800; EWorld scenario_world; EStep] ++
     frame_shapes 800 800 scenario_world ++ [ERequestFrame]).
Proof.
  split; [reflexivity|].
  apply (@redraw_no_boundary_frame nat (stub_simulation 1 scenario_world)
           800 800 (mkPageState 1%nat viewport_canvas)); reflexivity.
Defined.

(** ** Fitness statistics *)

Lemma fitness_loop_fold (xs : list Animal) :
  fitness_loop xs = fold_left fitness_step xs (0, 0).
Proof. reflexivity. Qed.

Lemma fitness_fold_from (xs : list Animal) (a m : Q) :
  fst (fold_left fitness_step xs (a, m)) == a + sum_fitness xs /\
  snd (fold_left fitness_step xs (a, m)) = fold_left Qmax (map animal_fitness xs) m.
Proof.
  revert a m; induction xs as [|x xs IH]; intros a m; cbn [fold_left fitness_step fst snd map].
  - split; [change (sum_fitness []) with 0; ring | reflexivity].
  - destruct (IH (a + animal_fitness x) (Qmax m (animal_fitness x))) as [H1 H2].
    split; [rewrite H1; change (sum_fitness (x :: xs)) with (animal_fitness x + sum_fitness xs); ring | exact H2].
Qed.

Lemma fold_Qmax_ge (l : list Q) (m : Q) : m <= fold_left Qmax l m.
Proof.
  revert m; induction l as [|x l IH]; intros m; cbn; [apply Qle_refl|].
  eapply Qle_trans; [apply Q.le_max_l | apply IH].
Qed.

Lemma fold_Qmax_nonpos (l : list Q) (m : Q) :
  m == 0 -> Forall (fun x => x <= 0) l -> fold_left Qmax l m == 0.
Proof.
  revert m; induction l as [|x l IH]; intros m Hm Hl; cbn; [exact Hm|].
  inversion Hl as [|? ? Hx Hl']; subst.
  apply IH; [|exact Hl'].
  rewrite Q.max_l; [exact Hm|]. rewrite Hm. exact Hx.
Qed.

Lemma fitness_stats_eq (w : World) :
  let '(avg_fitness, max_fitness) := fitness_loop (animals w) in
  fitness_stats w =
    (js_div avg_fitness (inject_Z (Z.of_nat (List.length (animals w)))), max_fitness).
Proof.
  unfold fitness_stats. destruct (fitness_loop (animals w)). reflexivity.
Qed.

(** ** C6: average and max fitness *)

(** C6. For a non-empty population the average is [JNum] of the sum of
    the fitness values divided by their count, and the max is the running
    [Math.max] of the fitness values from the initial 0; for fitness
    values [2, 5, 3] this is 10/3 and 5; for an empty population the max
    stays at its initial 0. *)
Theorem fitness_stats_average_and_max :
  (forall w : World, animals w <> [] ->
     exists avg,
       fst (fitness_stats w) = JNum avg /\
       avg == sum_fitness (animals w) / inject_Z (Z.of_nat (List.length (animals w))) /\
       snd (fitness_stats w) = fold_left Qmax (map animal_fitness (animals w)) 0) /\
  (forall w : World, animals w = [] -> snd (fitness_stats w) = 0) /\
  (exists avg max,
     fitness_stats (mkWorld [animal_with_fitness 0 0 2; animal_with_fitness 0 0 5;
                             animal_with_fitness 0 0 3] []) = (JNum avg, max) /\
     avg == 10 # 3 /\ max == 5).
Proof.
  split; [|split].
  - intros w Hne.
    pose proof (fitness_stats_eq w) as Heq.
    rewrite fitness_loop_fold in Heq.
    destruct (fitness_fold_from (animals w) 0 0) as [Hsum Hmax].
    destruct (fold_left fitness_step (animals w) (0, 0)) as [a m] eqn:Hf.
    cbn [fst snd] in Hsum, Hmax. rewrite Heq. cbn [fst snd].
    unfold js_div.
    destruct (Qeq_bool (inject_Z (Z.of_nat (List.length (animals w)))) 0) eqn:Hz.
    + apply Qeq_bool_eq, (proj1 (inject_Z_injective _ 0%Z)) in Hz.
      destruct (animals w); [congruence|]. rewrite List.length_cons in Hz. lia.
    + exists (a / inject_Z (Z.of_nat (List.length (animals w)))).
      split; [reflexivity|]. split; [|exact Hmax].
      rewrite Hsum. apply Qdiv_comp; [ring | reflexivity].
  - intros w He. unfold fitness_stats. rewrite He. reflexivity.
  - exists (10 # 3), 5. split; [reflexivity|]. split; reflexivity.
Qed.

(** ** C9: the reported max is never negative *)

(** C9. Whatever the fitness values, negative ones included, the max
    computed at a boundary is at least 0; when no fitness value is
    positive it is 0, as it is for a best fitness of exactly 0. *)
Theorem fitness_stats_max_nonneg (w : World) :
  0 <= snd (fitness_stats w) /\
  (Forall (fun a => animal_fitness a <= 0) (animals w) -> snd (fitness_stats w) == 0).
Proof.
  pose proof (fitness_stats_eq w) as Heq.
  rewrite fitness_loop_fold in Heq.
  destruct (fitness_fold_from (animals w) 0 0) as [_ Hmax].
  destruct (fold_left fitness_step (animals w) (0, 0)) as [a m] eqn:Hf.
  cbn [snd] in Hmax. rewrite Heq. cbn [snd]. subst m. split.
  - apply fold_Qmax_ge.
  - intros Hall. apply fold_Qmax_nonpos; [reflexivity|].
    apply Forall_map. exact Hall.
Qed.

(** ** Triangle geometry *)

Local Open Scope R_scope.

Lemma heading_unit (a : R) : fst (heading a) ^ 2 + snd (heading a) ^ 2 = 1.
Proof.
  unfold heading; cbn [fst snd].
  rewrite <- (sin2_cos2 a). unfold Rsqr. ring.
Qed.

(** ** C3: the apex at rotation 0 *)

(** C3 counterexample: at rotation 0 the first vertex of the triangle (the
    one at distance 1.5 along the rotation) is not above the center: at
    center [(0, 0)] it is at [(0, 1.5)], below it in screen space. *)
Lemma drawTriangle_rotation0_apex_not_above :
  ~ (forall px py size : R,
       exists ax ay rest,
         drawTriangle_path px py size 0 = BeginPath :: MoveTo ax ay :: rest /\
         ax = px /\ ay < py).
Proof.
  intros Hall. destruct (Hall 0 0 1) as (ax & ay & rest & Hp & _ & Hlt).
  unfold drawTriangle_path in Hp. injection Hp as Hx Hy _.
  rewrite cos_0 in Hy. lra.
Qed.

(** C3 (amended). For every center [(px, py)] and size, at rotation 0 the
    apex (the vertex at distance 1.5 along the rotation) is directly below
    the center in screen space, where y grows downward: same x, y larger
    by 1.5. *)
Theorem drawTriangle_rotation0_apex_below (px py size : R) :
  exists ax ay rest,
    drawTriangle_path px py size 0 = BeginPath :: MoveTo ax ay :: rest /\
    ax = px /\ ay = py + 1.5 /\ py < ay.
Proof.
  eexists _, _, _. split; [reflexivity|].
  rewrite sin_0, cos_0. lra.
Qed.

(** ** C4: the three vertices *)

(** C4. For every center, size and rotation, [drawTriangle] moves to the
    point at distance 1.5 from the center along the rotation heading, lines
    to the points at distance [size] along the headings rotated by +2π/3
    and by -2π/3 (the code writes the latter as +4π/3), closes back to the
    first point and fills; the heading of an angle is a unit vector. *)
Theorem drawTriangle_vertices (x y size rotation : R) :
  let vertex (d a : R) := (x + d * fst (heading a), y + d * snd (heading a)) in
  drawTriangle_path x y size rotation =
    [ BeginPath;
      MoveTo (fst (vertex 1.5 rotation)) (snd (vertex 1.5 rotation));
      LineTo (fst (vertex size (rotation + 2 / 3 * PI)))
             (snd (vertex size (rotation + 2 / 3 * PI)));
      LineTo (fst (vertex size (rotation - 2 / 3 * PI)))
             (snd (vertex size (rotation - 2 / 3 * PI)));
      LineTo (fst (vertex 1.5 rotation)) (snd (vertex 1.5 rotation));
      Fill "rgb(255, 255, 255)" ] /\
  (forall a, fst (heading a) ^ 2 + snd (heading a) ^ 2 = 1).
Proof.
  intros vertex. split; [|exact heading_unit].
  subst vertex; unfold drawTriangle_path, heading; cbn [fst snd].
  replace (rotation + 4 / 3 * PI) with ((rotation - 2 / 3 * PI) + 2 * PI) by field.
  rewrite (sin_plus (rotation - 2 / 3 * PI) (2 * PI)), (cos_plus (rotation - 2 / 3 * PI) (2 * PI)), sin_2PI, cos_2PI.
  repeat match goal with
  | |- cons _ _ = cons _ _ => f_equal
  | |- MoveTo _ _ = MoveTo _ _ => f_equal
  | |- LineTo _ _ = LineTo _ _ => f_equal
  end; ring.
Qed.

Local Close Scope R_scope.

(** ** Viewport setup *)

Definition is_viewport_setup (e : event) : bool :=
  match e with
  | ESetWidth _ | ESetHeight _ | EStyleWidth _ | EStyleHeight _ | EScale _ _ => true
  | _ => false
  end.

Lemma redraw_frames_keep_viewport {S} `{Simulation S} (vw vh : Z) (n : nat)
    (st : PageState S) :
  ps_canvas (snd (fst (redraw_frames vw vh n st))) = ps_canvas st /\
  filter is_viewport_setup (snd (redraw_frames vw vh n st)) = [].
Proof.
  revert st; induction n as [|n IH]; intros st; [split; reflexivity|].
  cbn [redraw_frames]. unfold bind. rewrite redraw_eq.
  destruct (redraw_frames vw vh n (mkPageState (step (ps_sim st)) (ps_canvas st)))
    as [[u st2] tr2] eqn:E.
  destruct (IH (mkPageState (step (ps_sim st)) (ps_canvas st))) as [Hc Hf].
  rewrite E in Hc, Hf. cbn [fst snd] in *. split; [exact Hc|].
  rewrite !filter_app, Hf, frame_shapes_filter_none by reflexivity.
  destruct (is_last_run (ps_sim st)); reflexivity.
Qed.

Lemma canvas_dimension_integral (default z : Z) (q : Q) :
  (0 <= z <= 2147483647)%Z -> q == inject_Z z -> canvas_dimension default q = z.
Proof.
  intros Hz Hq. unfold canvas_dimension, js_trunc.
  assert (Hle : Qle_bool 0 q = true).
  { apply Qle_bool_iff. rewrite Hq. unfold Qle; cbn. lia. }
  change (2 ^ 32)%Z with 4294967296%Z.
  assert (Hf : Qfloor q = z) by (rewrite Hq; apply Qfloor_Z).
  rewrite Hle, Hf, Z.mod_small by lia.
  rewrite (proj2 (Z.leb_le z 2147483647)) by lia. reflexivity.
Qed.

Section MainEquation.

Context {S : Type} `{Simulation S}.

(** The module body, written out: the viewport setup and then the frames. *)
Lemma main_eq (dpr : option Q) (n : nat) (st : PageState S) :
  let c := ps_canvas st in
  let r := viewport_scale dpr in
  let c' := mkCanvas (canvas_dimension 300 (inject_Z (cv_width c) * r))
                     (canvas_dimension 150 (inject_Z (cv_height c) * r))
                     (Some (string_of_Z (cv_width c) ++ "px")%string)
                     (Some (string_of_Z (cv_height c) ++ "px")%string)
                     (1 * r, 1 * r) in
  let frames := redraw_frames (cv_width c) (cv_height c) n (mkPageState (ps_sim st) c') in
  main dpr n st =
    (fst (fst frames), snd (fst frames),
     [EWorld (world (ps_sim st));
      ESetWidth (canvas_dimension 300 (inject_Z (cv_width c) * r));
      ESetHeight (canvas_dimension 150 (inject_Z (cv_height c) * r));
      EStyleWidth (string_of_Z (cv_width c) ++ "px");
      EStyleHeight (string_of_Z (cv_height c) ++ "px");
      EScale r r; EStartLog] ++ snd frames).
Proof.
  intros c r c' frames. destruct st as [s0 [w h sw sh sc]].
  subst c r c' frames; cbn [ps_sim ps_canvas cv_width cv_height].
  unfold main, bind, sim_world, get_viewport_width, get_viewport_height,
    set_viewport_width, set_viewport_height, set_style_width, set_style_height,
    ctxt_scale, emit; cbn [ps_sim ps_canvas cv_width cv_height cv_style_width
    cv_style_height cv_scale].
  destruct (redraw_frames w h n _) as [[u st2] tr2]. reflexivity.
Qed.

End MainEquation.

(** ** C8: viewport setup *)

Definition odd_canvas : Canvas := mkCanvas 301 301 None None (1, 1).

(** C8 counterexample: a 301 pixel wide canvas with a device pixel ratio
    of 1.25 gets a backing store 376 pixels wide, not 301 * 1.25 = 376.25:
    the canvas [width] attribute is an integer and the product is
    truncated when it is stored. *)
Lemma main_backing_store_truncated :
  cv_width (ps_canvas (snd (fst
    (@main nat (stub_simulation 1 scenario_world) (Some (5 # 4)) 0
       (mkPageState 0%nat odd_canvas))))) = 376%Z /\
  ~ (inject_Z (cv_width (ps_canvas (snd (fst
       (@main nat (stub_simulation 1 scenario_world) (Some (5 # 4)) 0
          (mkPageState 0%nat odd_canvas)))))) == inject_Z 301 * (5 # 4)).
Proof.
  split.
  - vm_compute. reflexivity.
  - vm_compute. discriminate.
Qed.

(** C8 (amended). Whatever the number of frames run, the module body sets
    up the viewport exactly once, before any frame: it sets the backing
    store width and height to the initially read logical width and height
    times [window.devicePixelRatio || 1] (1 when the ratio is undefined)
    as stored by the integer canvas attributes, that is truncated, which is
    the product itself whenever the product is a whole number (below
    2^31); it sets the CSS width and height to the logical ones in px; and
    it scales the (freshly reset) context once by the ratio in both
    directions. The setup comes before the first frame: the trace is the
    top-level snapshot fetch, the five setup operations, the start log and
    then the frames, which neither draw nor step before it and make no
    setup operation of their own. *)
Theorem main_viewport_setup {S} `{Simulation S}
    (dpr : option Q) (n : nat) (st : PageState S) :
  let c := ps_canvas st in
  let r := viewport_scale dpr in
  let final := ps_canvas (snd (fst (main dpr n st))) in
  viewport_scale None = 1 /\
  cv_width final = canvas_dimension 300 (inject_Z (cv_width c) * r) /\
  cv_height final = canvas_dimension 150 (inject_Z (cv_height c) * r) /\
  (forall zw zh : Z,
     (0 <= zw <= 2147483647)%Z -> (0 <= zh <= 2147483647)%Z ->
     inject_Z (cv_width c) * r == inject_Z zw ->
     inject_Z (cv_height c) * r == inject_Z zh ->
     cv_width final = zw /\ cv_height final = zh) /\
  cv_style_width final = Some (string_of_Z (cv_width c) ++ "px")%string /\
  cv_style_height final = Some (string_of_Z (cv_height c) ++ "px")%string /\
  fst (cv_scale final) == r /\ snd (cv_scale final) == r /\
  filter is_viewport_setup (snd (main dpr n st)) =
    [ESetWidth (cv_width final); ESetHeight (cv_height final);
     EStyleWidth (string_of_Z (cv_width c) ++ "px");
     EStyleHeight (string_of_Z (cv_height c) ++ "px");
     EScale r r] /\
  (exists frames,
     snd (main dpr n st) =
       EWorld (world (ps_sim st)) ::
       [ESetWidth (cv_width final); ESetHeight (cv_height final);
        EStyleWidth (string_of_Z (cv_width c) ++ "px");
        EStyleHeight (string_of_Z (cv_height c) ++ "px");
        EScale r r] ++ EStartLog :: frames /\
     filter is_viewport_setup frames = [] /\
     filter is_shape (EWorld (world (ps_sim st)) ::
       [ESetWidth (cv_width final); ESetHeight (cv_height final);
        EStyleWidth (string_of_Z (cv_width c) ++ "px");
        EStyleHeight (string_of_Z (cv_height c) ++ "px");
        EScale r r] ++ [EStartLog]) = [] /\
     filter is_step (EWorld (world (ps_sim st)) ::
       [ESetWidth (cv_width final); ESetHeight (cv_height final);
        EStyleWidth (string_of_Z (cv_width c) ++ "px");
        EStyleHeight (string_of_Z (cv_height c) ++ "px");
        EScale r r] ++ [EStartLog]) = []).
Proof.
  intros c r final. subst final. rewrite main_eq. cbn [fst snd].
  fold c r.
  set (c' := mkCanvas _ _ _ _ _).
  destruct (redraw_frames_keep_viewport (cv_width c) (cv_height c) n
              (mkPageState (ps_sim st) c')) as [Hc Hf].
  rewrite Hc. cbn [ps_canvas]. subst c'. cbn [cv_width cv_height cv_style_width
    cv_style_height cv_scale fst snd].
  split; [reflexivity|]. split; [reflexivity|]. split; [reflexivity|].
  split; [|split; [reflexivity|split; [reflexivity|split; [ring|split; [ring|]]]]].
  - intros zw zh Hw Hh Hqw Hqh. split; apply canvas_dimension_integral; assumption.
  - split; [cbn [filter is_viewport_setup app]; rewrite Hf; reflexivity|].
    eexists. split; [reflexivity|]. split; [exact Hf|]. split; reflexivity.
Qed.

(** * Further properties of the page *)

(** ** Many frames *)

Section Frames.

Context {S : Type} `{Simulation S}.

(** The engine states the frames start from: [s], [step s], ... *)
Fixpoint frame_states (s : S) (n : nat) : list S :=
  match n with
  | O => []
  | Datatypes.S n' => s :: frame_states (step s) n'
  end.

(** The trace of one frame started from engine state [s]. *)
Definition frame_trace (vw vh : Z) (s : S) : list event :=
  [EClear 0 0 (inject_Z vw) (inject_Z vh); EWorld (world s)] ++
  (if is_last_run s then [ELog (frame_report (generation s) (world s))] else []) ++
  [EStep] ++ frame_shapes vw vh (world s) ++ [ERequestFrame].

Definition count_by (p : event -> bool) (tr : list event) : nat :=
  List.length (filter p tr).

Definition is_request_frame (e : event) : bool :=
  match e with ERequestFrame => true | _ => false end.

Definition is_clear (e : event) : bool :=
  match e with EClear _ _ _ _ => true | _ => false end.

(** Running [n] frames, written out. *)
Lemma redraw_frames_eq (vw vh : Z) (n : nat) (st : PageState S) :
  redraw_frames vw vh n st =
    (tt, mkPageState (Nat.iter n step (ps_sim st)) (ps_canvas st),
     List.concat (map (frame_trace vw vh) (frame_states (ps_sim st) n))).
Proof.
  revert st; induction n as [|n IH]; intros [s c]; [reflexivity|].
  cbn [redraw_frames]. unfold bind. rewrite redraw_eq. cbn [ps_sim ps_canvas].
  rewrite IH. cbn [ps_sim ps_canvas frame_states map List.concat].
  rewrite Nat.iter_succ_r. unfold frame_trace.
  rewrite <- !app_assoc. reflexivity.
Qed.

(** X1. Running [n] frames is running the [n] single frames in a row: the
    trace is the concatenation of the frame traces from [s], [step s],
    ..., the engine ends [n] steps ahead, and the canvas element is left
    as it was. *)
Theorem redraw_frames_trace (vw vh : Z) (n : nat) (st : PageState S) :
  redraw_frames vw vh n st =
    (tt, mkPageState (Nat.iter n step (ps_sim st)) (ps_canvas st),
     List.concat (map (frame_trace vw vh) (frame_states (ps_sim st) n))).
Proof. exact (redraw_frames_eq vw vh n st). Qed.

End Frames.

Lemma filter_concat_map {A} (p : event -> bool) (f : A -> list event) (l : list A) :
  filter p (List.concat (map f l)) = List.concat (map (fun x => filter p (f x)) l).
Proof.
  induction l as [|x l IH]; cbn; [reflexivity|].
  now rewrite filter_app, IH.
Qed.

Lemma concat_map_single {A B} (f : A -> B) (l : list A) :
  List.concat (map (fun x => [f x]) l) = map f l.
Proof. induction l as [|x l IH]; cbn; [reflexivity|]. now rewrite IH. Qed.

Lemma frame_states_length {S} `{Simulation S} (s : S) (n : nat) :
  List.length (frame_states s n) = n.
Proof.
  revert s; induction n as [|n IH]; intros s; cbn; [reflexivity|]. now rewrite IH.
Qed.

Ltac frame_trace_filter :=
  unfold frame_trace; rewrite !filter_app, frame_shapes_filter_none by reflexivity;
  match goal with |- context [is_last_run ?s] => destruct (is_last_run s) end;
  reflexivity.

Section FrameCounts.

Context {S : Type} `{Simulation S}.

(** X2. Over [n] frames the page clears the canvas [n] times, fetches [n]
    snapshots, steps the engine [n] times and requests [n] further frames
    (one of each per frame, never more), and it never touches the canvas
    size, its CSS size or the context transform. *)
Theorem redraw_frames_counts (vw vh : Z) (n : nat) (st : PageState S) :
  let tr := snd (redraw_frames vw vh n st) in
  count_by is_clear tr = n /\
  count_by is_world_fetch tr = n /\
  count_by is_step tr = n /\
  count_by is_request_frame tr = n /\
  filter is_viewport_setup tr = [] /\
  ps_canvas (snd (fst (redraw_frames vw vh n st))) = ps_canvas st.
Proof.
  intros tr. subst tr. rewrite redraw_frames_eq. cbn [fst snd ps_canvas].
  unfold count_by. rewrite !filter_concat_map.
  repeat match goal with |- _ /\ _ => split end; [..| |reflexivity].
  - erewrite (map_ext _ (fun _ => [EClear 0 0 (inject_Z vw) (inject_Z vh)]))
      by (intros s; frame_trace_filter).
    rewrite (concat_map_single (fun _ => EClear 0 0 (inject_Z vw) (inject_Z vh))),
      length_map. apply frame_states_length.
  - erewrite (map_ext _ (fun s => [EWorld (world s)])) by (intros s; frame_trace_filter).
    rewrite (concat_map_single (fun s => EWorld (world s))), length_map.
    apply frame_states_length.
  - erewrite (map_ext _ (fun _ => [EStep])) by (intros s; frame_trace_filter).
    rewrite (concat_map_single (fun _ => EStep)), length_map. apply frame_states_length.
  - erewrite (map_ext _ (fun _ => [ERequestFrame])) by (intros s; frame_trace_filter).
    rewrite (concat_map_single (fun _ => ERequestFrame)), length_map.
    apply frame_states_length.
  - erewrite (map_ext _ (fun _ => [])) by (intros s; frame_trace_filter).
    induction (frame_states (ps_sim st) n); cbn; auto.
Qed.

End FrameCounts.

Section FrameReports.

Context {S : Type} `{Simulation S}.

(** X3. Over [n] frames the page logs one report for each frame that
    starts at the last step of a generation, and none for the others: the
    reports, in order, are those of the engine states [s], [step s], ...
    at which [is_last_run] holds, each made of that state's generation
    index and the statistics of that state's snapshot. *)
Theorem redraw_frames_reports (vw vh : Z) (n : nat) (st : PageState S) :
  filter is_log (snd (redraw_frames vw vh n st)) =
    List.concat (map (fun s => if is_last_run s
                               then [ELog (frame_report (generation s) (world s))]
                               else [])
                     (frame_states (ps_sim st) n)).
Proof.
  rewrite redraw_frames_eq. cbn [snd]. rewrite filter_concat_map.
  f_equal. apply map_ext. intros s. frame_trace_filter.
Qed.

(** X4. The module body fetches one snapshot at top level, then only
    sets up the viewport and logs the start message before the first
    frame; the frames draw with the logical size read before the canvas
    was resized, start from the engine state the top-level snapshot was
    taken in (that fetch does not step the engine), and leave the engine
    [n] steps ahead. *)
Theorem main_trace (dpr : option Q) (n : nat) (st : PageState S) :
  let s0 := ps_sim st in
  let vw := cv_width (ps_canvas st) in
  let vh := cv_height (ps_canvas st) in
  exists setup,
    forallb is_viewport_setup setup = true /\
    snd (main dpr n st) =
      EWorld (world s0) :: setup ++
      EStartLog :: List.concat (map (frame_trace vw vh) (frame_states s0 n)) /\
    ps_sim (snd (fst (main dpr n st))) = Nat.iter n step s0.
Proof.
  intros s0 vw vh. rewrite main_eq. cbn [fst snd].
  rewrite redraw_frames_eq. cbn [fst snd ps_sim].
  set (r := viewport_scale dpr).
  exists [ESetWidth (canvas_dimension 300 (inject_Z vw * r));
          ESetHeight (canvas_dimension 150 (inject_Z vh * r));
          EStyleWidth (string_of_Z vw ++ "px"); EStyleHeight (string_of_Z vh ++ "px");
          EScale r r].
  split; [reflexivity|]. split; reflexivity.
Qed.

End FrameReports.

(** ** Fitness statistics, further *)

Lemma Qmax_cases (x y : Q) : Qmax x y = x \/ Qmax x y = y.
Proof.
  unfold Qmax, GenericMinMax.gmax. destruct (x ?= y); auto.
Qed.

Lemma fold_Qmax_upper (l : list Q) (m x : Q) : In x l -> x <= fold_left Qmax l m.
Proof.
  revert m; induction l as [|y l IH]; intros m Hin; [destruct Hin|].
  cbn. destruct Hin as [<-|Hin].
  - eapply Qle_trans; [apply Q.le_max_r | apply fold_Qmax_ge].
  - apply IH, Hin.
Qed.

Lemma fold_Qmax_attained (l : list Q) (m : Q) :
  fold_left Qmax l m = m \/ In (fold_left Qmax l m) l.
Proof.
  revert m; induction l as [|y l IH]; intros m; cbn; [auto|].
  destruct (IH (Qmax m y)) as [E|E]; [|auto].
  rewrite E. destruct (Qmax_cases m y) as [->| ->]; auto.
Qed.

Lemma fitness_stats_max_fold (w : World) :
  snd (fitness_stats w) = fold_left Qmax (map animal_fitness (animals w)) 0.
Proof.
  pose proof (fitness_stats_eq w) as Heq. rewrite fitness_loop_fold in Heq.
  destruct (fitness_fold_from (animals w) 0 0) as [_ Hmax].
  destruct (fold_left fitness_step (animals w) (0, 0)) as [a m].
  rewrite Heq. exact Hmax.
Qed.

(** X5. The max logged at a boundary is at least every animal's fitness,
    and it is exactly the initial 0 or the fitness of one of the
    animals. *)
Theorem fitness_stats_max_bound (w : World) :
  (forall a, In a (animals w) -> animal_fitness a <= snd (fitness_stats w)) /\
  (snd (fitness_stats w) = 0 \/
   exists a, In a (animals w) /\ snd (fitness_stats w) = animal_fitness a).
Proof.
  rewrite fitness_stats_max_fold. split.
  - intros a Ha. apply fold_Qmax_upper, in_map, Ha.
  - destruct (fold_Qmax_attained (map animal_fitness (animals w)) 0) as [E|E];
      [left; exact E|right].
    apply in_map_iff in E. destruct E as (a & Ha & Hin). exists a. auto.
Qed.

(** ** Triangle geometry, further *)

Local Open Scope R_scope.

Lemma heading_dist2 (x y d1 d2 a b : R) :
  Rsqr ((x - sin a * d1) - (x - sin b * d2)) + Rsqr ((y + cos a * d1) - (y + cos b * d2)) =
  d1 * d1 + d2 * d2 - 2 * d1 * d2 * cos (b - a).
Proof.
  rewrite cos_minus.
  transitivity (d1 * d1 * (Rsqr (sin a) + Rsqr (cos a)) +
                d2 * d2 * (Rsqr (sin b) + Rsqr (cos b)) -
                2 * d1 * d2 * (cos b * cos a + sin b * sin a));
    [unfold Rsqr; ring|].
  rewrite !sin2_cos2. ring.
Qed.

Lemma cos_2PI3 : cos (2 / 3 * PI) = - (1 / 2).
Proof.
  replace (2 / 3 * PI) with (2 * (PI / 3)) by field.
  rewrite cos_2a_cos, cos_PI3. field.
Qed.

Lemma cos_4PI3 : cos (4 / 3 * PI) = - (1 / 2).
Proof.
  replace (4 / 3 * PI) with (2 * PI - 2 / 3 * PI) by field.
  rewrite cos_minus, cos_2PI, sin_2PI, cos_2PI3. ring.
Qed.

Lemma sin_4PI3 : sin (4 / 3 * PI) = - sin (2 / 3 * PI).
Proof.
  replace (4 / 3 * PI) with (2 * PI - 2 / 3 * PI) by field.
  rewrite sin_minus, cos_2PI, sin_2PI. ring.
Qed.

(** X8. The triangle [drawTriangle] fills is a closed path through three
    points [A], [B1], [B2] (back to [A]); it is isosceles with apex [A]:
    both legs have squared length [9/4 + 3/2 * size + size^2], and the
    base has squared length [3 * size^2]. *)
Theorem drawTriangle_isosceles (x y size rotation : R) :
  exists ax ay b1x b1y b2x b2y,
    drawTriangle_path x y size rotation =
      [BeginPath; MoveTo ax ay; LineTo b1x b1y; LineTo b2x b2y; LineTo ax ay;
       Fill "rgb(255, 255, 255)"] /\
    Rsqr (ax - b1x) + Rsqr (ay - b1y) = 9 / 4 + 3 / 2 * size + size * size /\
    Rsqr (ax - b2x) + Rsqr (ay - b2y) = 9 / 4 + 3 / 2 * size + size * size /\
    Rsqr (b1x - b2x) + Rsqr (b1y - b2y) = 3 * (size * size).
Proof.
  do 6 eexists. split; [reflexivity|].
  rewrite !heading_dist2.
  replace (rotation + 2 / 3 * PI - rotation) with (2 / 3 * PI) by ring.
  replace (rotation + 4 / 3 * PI - rotation) with (4 / 3 * PI) by ring.
  replace (rotation + 4 / 3 * PI - (rotation + 2 / 3 * PI)) with (2 / 3 * PI) by field.
  rewrite cos_2PI3, cos_4PI3. repeat split; lra.
Qed.

(** X9. The centroid of that triangle is the drawing center moved by
    [(1.5 - size) / 3] along the rotation heading: it is the center only
    when [size = 1.5]. *)
Theorem drawTriangle_centroid (x y size rotation : R) :
  exists ax ay b1x b1y b2x b2y,
    drawTriangle_path x y size rotation =
      [BeginPath; MoveTo ax ay; LineTo b1x b1y; LineTo b2x b2y; LineTo ax ay;
       Fill "rgb(255, 255, 255)"] /\
    (ax + b1x + b2x) / 3 = x + (1.5 - size) / 3 * fst (heading rotation) /\
    (ay + b1y + b2y) / 3 = y + (1.5 - size) / 3 * snd (heading rotation).
Proof.
  do 6 eexists. split; [reflexivity|].
  unfold heading; cbn [fst snd].
  rewrite !sin_plus, !cos_plus, cos_2PI3, cos_4PI3, sin_4PI3.
  split; field.
Qed.

Local Close Scope R_scope.
